(** * dbc: a thin wrapper layer over database/sql

    A shallow embedding of [dbc.go].  The package wraps the statement,
    transaction and row objects of Go's [database/sql]; every method is a
    forwarding call, and [DbStmt.BatchInsert] is the only loop.

    The wrapped objects are not part of the package.  They are modelled as an
    oracle ([Driver]) that answers each call from the history of the calls made
    so far, and every wrapper method runs in a small monad that records the
    calls reaching the driver and can stop with a run-time panic (a nil
    pointer dereference). *)

From Stdlib Require Import List String Ascii ZArith NArith Bool Arith Lia.
From Stdlib Require Import DecimalString HexadecimalString.
Import ListNotations.
Local Open Scope list_scope.
Set Warnings "-register-all".

(** ** Go values *)

(** The dynamic values an [interface{}] holds in this development.  A
    [[]interface{}] is itself a value that an [interface{}] can hold
    ([ISlice]); this is what a variadic call made without [...] passes. *)
Inductive iface : Type :=
| INil
| IBool (b : bool)
| IInt (n : Z)
| IString (s : string)
| IPtr (addr : N)
| ISlice (xs : list iface).

(** Nesting depth and width of a value, for arguments by size. *)
Fixpoint iface_size (v : iface) : nat :=
  match v with
  | ISlice xs => S (list_sum (map iface_size xs))
  | _ => 1
  end.

(** A Go pointer: nil or the object it points to. *)
Definition ptr (A : Type) : Type := option A.

(** ** Errors *)

(** The error values that can flow through the layer: the eight package-level
    variables of [dbc.go], the two sentinels of [database/sql] that matter
    here, and any other error a driver raises. *)
Inductive error : Type :=
| ErrDbInsert
| ErrDbSelect
| ErrDbUpdate
| ErrStmtCreate
| ErrStmtClose
| ErrStmtExec
| ErrTxnBegin
| ErrTxnCommit
| sql_ErrNoRows
| sql_ErrTxDone
| driver_error (text : string).

(** The [Error()] text of each value, as given to [errors.New]. *)
Definition Error (e : error) : string :=
  match e with
  | ErrDbInsert => "SQL insert failed"
  | ErrDbSelect => "SQL select failed"
  | ErrDbUpdate => "SQL update failed"
  | ErrStmtCreate => "SQL create statement failed"
  | ErrStmtClose => "SQL close statement failed"
  | ErrStmtExec => "SQL execute statement failed"
  | ErrTxnBegin => "SQL transaction begin failed"
  | ErrTxnCommit => "SQL transaction commit failed"
  | sql_ErrNoRows => "sql: no rows in result set"
  | sql_ErrTxDone => "sql: transaction has already been committed or rolled back"
  | driver_error text => text
  end.

(** The [var ( ... )] block of [dbc.go]. *)
Definition sentinels : list error :=
  [ErrDbInsert; ErrDbSelect; ErrDbUpdate; ErrStmtCreate;
   ErrStmtClose; ErrStmtExec; ErrTxnBegin; ErrTxnCommit].

Definition is_sentinel (e : error) : bool :=
  match e with
  | ErrDbInsert | ErrDbSelect | ErrDbUpdate | ErrStmtCreate
  | ErrStmtClose | ErrStmtExec | ErrTxnBegin | ErrTxnCommit => true
  | _ => false
  end.

(** ** The wrapped driver *)

(** Live driver objects, by identity. *)
Definition sqlStmt := nat.
Definition sqlTx := nat.
Definition sqlRow := nat.

(** [sql.Result]: nil, or a summary of the rows touched. *)
Inductive sql_Result : Type :=
| Result_nil
| Result_of (lastInsertId rowsAffected : Z).

(** One call that reaches a [database/sql] object, with the operands exactly
    as the callee receives them. *)
Inductive call : Type :=
| StmtClose (s : sqlStmt)
| StmtExec (s : sqlStmt) (args : list iface)
| StmtQueryRow (s : sqlStmt) (args : list iface)
| TxExec (t : sqlTx) (query : string) (args : list iface)
| TxPrepare (t : sqlTx) (query : string)
| TxQueryRow (t : sqlTx) (query : string) (args : list iface)
| TxCommit (t : sqlTx)
| TxRollback (t : sqlTx)
| RowScan (r : sqlRow) (dest : list iface).

(** The calls made so far, oldest first. *)
Definition trace := list call.

(** What the wrapped objects answer.  Each answer may depend on everything
    that happened before; [QueryRow] of [database/sql] always yields a row
    object and keeps its failure for [Scan]. *)
Record Driver : Type := {
  stmt_close : trace -> sqlStmt -> option error;
  stmt_exec : trace -> sqlStmt -> list iface -> sql_Result * option error;
  stmt_query_row : trace -> sqlStmt -> list iface -> sqlRow;
  tx_exec : trace -> sqlTx -> string -> list iface -> sql_Result * option error;
  tx_prepare : trace -> sqlTx -> string -> ptr sqlStmt * option error;
  tx_query_row : trace -> sqlTx -> string -> list iface -> sqlRow;
  tx_commit : trace -> sqlTx -> option error;
  tx_rollback : trace -> sqlTx -> option error;
  row_scan : trace -> sqlRow -> list iface -> option error
}.

(** The error the driver gives back for call [c] made after history [tr]
    ([None] is Go's nil error; the two [QueryRow] calls return no error). *)
Definition answer (d : Driver) (tr : trace) (c : call) : option error :=
  match c with
  | StmtClose s => stmt_close d tr s
  | StmtExec s args => snd (stmt_exec d tr s args)
  | StmtQueryRow _ _ => None
  | TxExec t q args => snd (tx_exec d tr t q args)
  | TxPrepare t q => snd (tx_prepare d tr t q)
  | TxQueryRow _ _ _ => None
  | TxCommit t => tx_commit d tr t
  | TxRollback t => tx_rollback d tr t
  | RowScan r dest => row_scan d tr r dest
  end.

(** ** Running a method *)

(** A method either returns a value or panics; both leave a history. *)
Inductive outcome (A : Type) : Type :=
| Returns (a : A) (tr : trace)
| Panics (tr : trace).
Arguments Returns {A} a tr.
Arguments Panics {A} tr.

Definition M (A : Type) : Type := trace -> outcome A.

Definition ret {A : Type} (a : A) : M A := fun tr => Returns a tr.

Definition bind {A B : Type} (m : M A) (k : A -> M B) : M B :=
  fun tr =>
    match m tr with
    | Returns a tr' => k a tr'
    | Panics tr' => Panics tr'
    end.

Notation "x <- m ;; k" := (bind m (fun x => k))
  (at level 61, m at next level, right associativity).
Notation "' pat <- m ;; k" := (bind m (fun x => match x with pat => k end))
  (at level 61, pat pattern, m at next level, right associativity).

(** Following a pointer: a nil pointer panics before anything is sent. *)
Definition deref {A : Type} (p : ptr A) : M A :=
  fun tr =>
    match p with
    | Some a => Returns a tr
    | None => Panics tr
    end.

(** Performing call [c]: the driver answers from the history so far, and the
    call joins the history. *)
Definition perform {A : Type} (c : call) (reply : trace -> A) : M A :=
  fun tr => Returns (reply tr) (tr ++ [c]).

(** ** The wrapper types *)

Record Query : Type := { Query_Q : string; Query_Args : list iface }.

Record DbRow : Type := { DbRow_R : ptr sqlRow }.

Record DbRowV : Type := { DbRowV_V : list iface }.

Record DbStmt : Type := { DbStmt_S : ptr sqlStmt }.

Record TxHandle : Type := { TxHandle_T : ptr sqlTx }.

(** Interface values: nil, or one of the package's implementations. *)
Inductive Row : Type :=
| Row_nil
| Row_DbRow (r : DbRow).

Inductive Statement : Type :=
| Statement_nil
| Statement_DbStmt (st : DbStmt).

Inductive Handle : Type :=
| Handle_nil
| Handle_TxHandle (tx : TxHandle).

(** ** Package fmt, as far as [Query.String] uses it *)

Section Fmt.
Local Open Scope string_scope.

Definition decimal (n : Z) : string :=
  DecimalString.NilZero.string_of_int (Z.to_int n).

Definition hexadecimal (a : N) : string :=
  HexadecimalString.NilZero.string_of_uint (N.to_hex_uint a).

(** Elements of a slice are separated by one space. *)
Fixpoint join_space (xs : list string) : string :=
  match xs with
  | [] => ""
  | [x] => x
  | x :: rest => x ++ " " ++ join_space rest
  end.

Definition type_name (v : iface) : string :=
  match v with
  | INil => "<nil>"
  | IBool _ => "bool"
  | IInt _ => "int"
  | IString _ => "string"
  | IPtr _ => "*interface {}"
  | ISlice _ => "[]interface {}"
  end.

(** The default format, verb [%v]. *)
Fixpoint fmt_v (v : iface) : string :=
  match v with
  | INil => "<nil>"
  | IBool b => if b then "true" else "false"
  | IInt n => decimal n
  | IString s => s
  | IPtr a => if N.eqb a 0 then "<nil>" else "0x" ++ hexadecimal a
  | ISlice xs => "[" ++ join_space (map fmt_v xs) ++ "]"
  end.

(** What fmt prints when verb [c] does not apply to the operand. *)
Definition bad_verb (c : ascii) (v : iface) : string :=
  match v with
  | INil => "%!" ++ String c "(<nil>)"
  | _ => "%!" ++ String c "(" ++ type_name v ++ "=" ++ fmt_v v ++ ")"
  end.

(** Verb [%s]: strings as they are, slices element by element. *)
Fixpoint fmt_s (v : iface) : string :=
  match v with
  | IString s => s
  | ISlice xs => "[" ++ join_space (map fmt_s xs) ++ "]"
  | _ => bad_verb "s" v
  end.

Definition fmt_verb (c : ascii) (v : iface) : string :=
  if Ascii.eqb c "v" then fmt_v v
  else if Ascii.eqb c "s" then fmt_s v
  else bad_verb c v.

Fixpoint extra_operands (a : list iface) : string :=
  match a with
  | [] => ""
  | [x] => type_name x ++ "=" ++ fmt_v x
  | x :: rest => type_name x ++ "=" ++ fmt_v x ++ ", " ++ extra_operands rest
  end.

(** [fmt.Sprintf] for formats built from literal text, [%%], [%s] and [%v]
    (no flags, widths or other verbs). *)
Fixpoint Sprintf (format : string) (a : list iface) {struct format} : string :=
  match format with
  | EmptyString =>
      match a with
      | [] => ""
      | _ => "%!(EXTRA " ++ extra_operands a ++ ")"
      end
  | String c rest =>
      if Ascii.eqb c "%" then
        match rest with
        | EmptyString => "%!(NOVERB)"
        | String v rest' =>
            if Ascii.eqb v "%" then String "%" (Sprintf rest' a)
            else
              match a with
              | [] => "%!" ++ String v "(MISSING)" ++ Sprintf rest' []
              | x :: a' => fmt_verb v x ++ Sprintf rest' a'
              end
        end
      else String c (Sprintf rest a)
  end.

(** [func NewQuery(q string, args ...interface{}) Query] *)
Definition NewQuery (q : string) (args : list iface) : Query :=
  {| Query_Q := q; Query_Args := args |}.

(** [func (q Query) String() string] *)
Definition Query_String (q : Query) : string :=
  Sprintf "[%s, %v]" [IString (Query_Q q); ISlice (Query_Args q)].

End Fmt.

(** ** The methods of [dbc.go] *)

Section Layer.

Variable d : Driver.

(** [func (r *DbRow) Scan(args ...interface{}) error]

    The body is [r.R.Scan(args)], without [...]: the row object receives one
    operand, the slice. *)
Definition DbRow_Scan (r : DbRow) (args : list iface) : M (option error) :=
  row <- deref (DbRow_R r) ;;
  perform (RowScan row [ISlice args]) (fun tr => row_scan d tr row [ISlice args]).

(** [func (st *DbStmt) Close() error] *)
Definition DbStmt_Close (st : DbStmt) : M (option error) :=
  s <- deref (DbStmt_S st) ;;
  perform (StmtClose s) (fun tr => stmt_close d tr s).

(** [func (st *DbStmt) Exec(args ...interface{}) (sql.Result, error)]

    The body is [st.S.Exec(args)], without [...]. *)
Definition DbStmt_Exec (st : DbStmt) (args : list iface)
  : M (sql_Result * option error) :=
  s <- deref (DbStmt_S st) ;;
  perform (StmtExec s [ISlice args]) (fun tr => stmt_exec d tr s [ISlice args]).

(** [func (st *DbStmt) QueryRow(args ...interface{}) Row]

    The body is [&DbRow{st.S.QueryRow(args)}], without [...]. *)
Definition DbStmt_QueryRow (st : DbStmt) (args : list iface) : M Row :=
  s <- deref (DbStmt_S st) ;;
  r <- perform (StmtQueryRow s [ISlice args])
         (fun tr => stmt_query_row d tr s [ISlice args]) ;;
  ret (Row_DbRow {| DbRow_R := Some r |}).

(** The [for _, r := range rows] loop of [BatchInsert]; [Some e] is the
    [return err] inside the loop, [None] is falling out of it. *)
Fixpoint BatchInsert_rows (st : DbStmt) (rows : list DbRowV) : M (option error) :=
  match rows with
  | [] => ret None
  | r :: rest =>
      '(_, err) <- DbStmt_Exec st (DbRowV_V r) ;;
      match err with
      | Some e => ret (Some e)
      | None => BatchInsert_rows st rest
      end
  end.

(** [func (st *DbStmt) BatchInsert(rows []DbRowV) error] *)
Definition DbStmt_BatchInsert (st : DbStmt) (rows : list DbRowV)
  : M (option error) :=
  early <- BatchInsert_rows st rows ;;
  match early with
  | Some e => ret (Some e)
  | None =>
      '(_, err) <- DbStmt_Exec st [] ;;
      match err with
      | Some e => ret (Some e)
      | None => ret None
      end
  end.

(** [func (tx TxHandle) Exec(query string, args ...interface{}) (sql.Result, error)]

    The body is [tx.T.Exec(query, args...)]: the operands are spread. *)
Definition TxHandle_Exec (tx : TxHandle) (query : string) (args : list iface)
  : M (sql_Result * option error) :=
  t <- deref (TxHandle_T tx) ;;
  perform (TxExec t query args) (fun tr => tx_exec d tr t query args).

(** [func (tx *TxHandle) Prepare(query string) (Statement, error)]

    The statement pointer the driver gives back is wrapped whatever the
    error is. *)
Definition TxHandle_Prepare (tx : TxHandle) (query : string)
  : M (Statement * option error) :=
  t <- deref (TxHandle_T tx) ;;
  '(s, err) <- perform (TxPrepare t query) (fun tr => tx_prepare d tr t query) ;;
  ret (Statement_DbStmt {| DbStmt_S := s |}, err).

(** [func (tx *TxHandle) QueryRow(query string, args ...interface{}) Row]

    The body is [&DbRow{tx.T.QueryRow(query, args)}], without [...]. *)
Definition TxHandle_QueryRow (tx : TxHandle) (query : string) (args : list iface)
  : M Row :=
  t <- deref (TxHandle_T tx) ;;
  r <- perform (TxQueryRow t query [ISlice args])
         (fun tr => tx_query_row d tr t query [ISlice args]) ;;
  ret (Row_DbRow {| DbRow_R := Some r |}).

(** [func (tx *TxHandle) Commit() error] *)
Definition TxHandle_Commit (tx : TxHandle) : M (option error) :=
  t <- deref (TxHandle_T tx) ;;
  perform (TxCommit t) (fun tr => tx_commit d tr t).

(** [func (tx *TxHandle) Rollback() error] *)
Definition TxHandle_Rollback (tx : TxHandle) : M (option error) :=
  t <- deref (TxHandle_T tx) ;;
  perform (TxRollback t) (fun tr => tx_rollback d tr t).

(** *** Calls through the interfaces *)

Definition panic {A : Type} : M A := fun tr => Panics tr.

Definition Row_Scan (r : Row) (dest : list iface) : M (option error) :=
  match r with
  | Row_nil => panic
  | Row_DbRow r' => DbRow_Scan r' dest
  end.

Definition Statement_Close (s : Statement) : M (option error) :=
  match s with
  | Statement_nil => panic
  | Statement_DbStmt st => DbStmt_Close st
  end.

Definition Statement_Exec (s : Statement) (args : list iface)
  : M (sql_Result * option error) :=
  match s with
  | Statement_nil => panic
  | Statement_DbStmt st => DbStmt_Exec st args
  end.

Definition Statement_QueryRow (s : Statement) (args : list iface) : M Row :=
  match s with
  | Statement_nil => panic
  | Statement_DbStmt st => DbStmt_QueryRow st args
  end.

Definition Handle_Exec (h : Handle) (query : string) (args : list iface)
  : M (sql_Result * option error) :=
  match h with
  | Handle_nil => panic
  | Handle_TxHandle tx => TxHandle_Exec tx query args
  end.

Definition Handle_Prepare (h : Handle) (query : string)
  : M (Statement * option error) :=
  match h with
  | Handle_nil => panic
  | Handle_TxHandle tx => TxHandle_Prepare tx query
  end.

Definition Handle_QueryRow (h : Handle) (query : string) (args : list iface)
  : M Row :=
  match h with
  | Handle_nil => panic
  | Handle_TxHandle tx => TxHandle_QueryRow tx query args
  end.

End Layer.

(** ** Reading a history *)

(** The driver call [BatchInsert] makes for row [r]: [st.Exec(r.V...)] runs
    [st.S.Exec(args)] with [args = r.V]. *)
Definition row_call (s : sqlStmt) (r : DbRowV) : call :=
  StmtExec s [ISlice (DbRowV_V r)].

(** The last call [BatchInsert] makes on success: [st.Exec()] runs
    [st.S.Exec(args)] with [args] the empty slice. *)
Definition flush_call (s : sqlStmt) : call := StmtExec s [ISlice []].

(** Every method that has an [error] result, with its operands; the two
    [QueryRow] methods are listed with the nil error, for they return none. *)
Inductive operation : Type :=
| OpRowScan (r : DbRow) (dest : list iface)
| OpStmtClose (st : DbStmt)
| OpStmtExec (st : DbStmt) (args : list iface)
| OpStmtQueryRow (st : DbStmt) (args : list iface)
| OpBatchInsert (st : DbStmt) (rows : list DbRowV)
| OpTxExec (tx : TxHandle) (query : string) (args : list iface)
| OpTxPrepare (tx : TxHandle) (query : string)
| OpTxQueryRow (tx : TxHandle) (query : string) (args : list iface)
| OpTxCommit (tx : TxHandle)
| OpTxRollback (tx : TxHandle).

(** The error a method hands to its caller. *)
Definition returned_error (d : Driver) (op : operation) : M (option error) :=
  match op with
  | OpRowScan r dest => DbRow_Scan d r dest
  | OpStmtClose st => DbStmt_Close d st
  | OpStmtExec st args => x <- DbStmt_Exec d st args ;; ret (snd x)
  | OpStmtQueryRow st args => _ <- DbStmt_QueryRow d st args ;; ret None
  | OpBatchInsert st rows => DbStmt_BatchInsert d st rows
  | OpTxExec tx q args => x <- TxHandle_Exec d tx q args ;; ret (snd x)
  | OpTxPrepare tx q => x <- TxHandle_Prepare d tx q ;; ret (snd x)
  | OpTxQueryRow tx q args => _ <- TxHandle_QueryRow d tx q args ;; ret None
  | OpTxCommit tx => TxHandle_Commit d tx
  | OpTxRollback tx => TxHandle_Rollback d tx
  end.

(** A driver that never answers with one of the package's own variables. *)
Definition sentinel_free (d : Driver) : Prop :=
  forall tr c e, answer d tr c = Some e -> is_sentinel e = false.

(** ** The transaction life cycle, as the specification words it *)

(** States {Open, Committed, Rolled-back}; Open is initial; a successful
    Commit leads from Open to Committed, a Rollback from Open to Rolled-back;
    both are terminal.  The state of transaction [t] is read off the calls
    that reached the driver. *)
Inductive TxState : Type := Open | Committed | RolledBack.

Definition tx_step (d : Driver) (t : sqlTx) (st : TxState) (tr : trace) (c : call)
  : TxState :=
  match st with
  | Open =>
      match c with
      | TxCommit t' =>
          if Nat.eqb t' t then
            match tx_commit d tr t with
            | None => Committed
            | Some _ => Open
            end
          else Open
      | TxRollback t' => if Nat.eqb t' t then RolledBack else Open
      | _ => Open
      end
  | Committed => Committed
  | RolledBack => RolledBack
  end.

Fixpoint tx_run (d : Driver) (t : sqlTx) (st : TxState) (tr rest : trace) : TxState :=
  match rest with
  | [] => st
  | c :: rest' => tx_run d t (tx_step d t st tr c) (tr ++ [c]) rest'
  end.

Definition tx_state (d : Driver) (t : sqlTx) (tr : trace) : TxState :=
  tx_run d t Open [] tr.

(** [Commit] or [Rollback] has been called on transaction [t]. *)
Definition finishes (t : sqlTx) (c : call) : bool :=
  match c with
  | TxCommit t' | TxRollback t' => Nat.eqb t' t
  | _ => false
  end.

Definition tx_done (tr : trace) (t : sqlTx) : bool := existsb (finishes t) tr.

(** What [database/sql] does for a [*sql.Tx]: the transaction is marked done
    as soon as [Commit] or [Rollback] is called on it, whether or not the
    call succeeds; from then on [Exec], [Prepare], [Commit] and [Rollback]
    answer [ErrTxDone] ([Prepare] with a nil statement), and a row asked for
    through it reports [ErrTxDone] when it is scanned. *)
Definition keeps_sql_Tx_contract (d : Driver) : Prop :=
  forall tr t, tx_done tr t = true ->
    (forall q args, snd (tx_exec d tr t q args) = Some sql_ErrTxDone)
    /\ (forall q, tx_prepare d tr t q = (None, Some sql_ErrTxDone))
    /\ tx_commit d tr t = Some sql_ErrTxDone
    /\ tx_rollback d tr t = Some sql_ErrTxDone
    /\ (forall q args after dest,
          row_scan d ((tr ++ [TxQueryRow t q args]) ++ after)
            (tx_query_row d tr t q args) dest
          = Some sql_ErrTxDone).

(** ** Drivers to run the layer against *)

(** [Scan] of [database/sql] refuses a destination that is not a pointer. *)
Definition is_pointer (v : iface) : bool :=
  match v with
  | IPtr a => negb (N.eqb a 0)
  | _ => false
  end.

Definition scan_destinations (dest : list iface) : option error :=
  if forallb is_pointer dest then None
  else Some (driver_error "destination not a pointer").

(** Rows are numbered by the position of the call that asked for them; row
    [r] belongs to a finished transaction when that call was a [QueryRow] on
    a transaction that was done by then. *)
Definition row_of_finished_tx (tr : trace) (r : sqlRow) : bool :=
  match nth_error tr r with
  | Some (TxQueryRow t _ _) => tx_done (firstn r tr) t
  | _ => false
  end.

(** [database/sql] over a backend that accepts every statement and answers
    [commit_answer] to the commit of an open transaction.  A transaction on
    which [Commit] or [Rollback] was called answers [ErrTxDone], with a nil
    statement from [Prepare], and a row read through it reports [ErrTxDone]
    on [Scan]; any other row is scanned into pointers only. *)
Definition sql_Tx_driver (commit_answer : option error) : Driver := {|
  stmt_close := fun _ _ => None;
  stmt_exec := fun _ _ _ => (Result_of 0 1, None);
  stmt_query_row := fun tr _ _ => List.length tr;
  tx_exec := fun tr t _ _ =>
    if tx_done tr t then (Result_nil, Some sql_ErrTxDone) else (Result_of 0 1, None);
  tx_prepare := fun tr t _ =>
    if tx_done tr t then (None, Some sql_ErrTxDone) else (Some (List.length tr), None);
  tx_query_row := fun tr _ _ _ => List.length tr;
  tx_commit := fun tr t => if tx_done tr t then Some sql_ErrTxDone else commit_answer;
  tx_rollback := fun tr t => if tx_done tr t then Some sql_ErrTxDone else None;
  row_scan := fun tr r dest =>
    if row_of_finished_tx tr r then Some sql_ErrTxDone else scan_destinations dest
|}.

(** The backend commits without complaint. *)
Definition sql_driver : Driver := sql_Tx_driver None.

(** The same driver, under the name used where statements are executed and
    nothing is refused. *)
Definition quiet_driver : Driver := sql_driver.

(** As [sql_driver], but the statement execution that arrives when [k]
    calls have been made fails with [e]. *)
Definition failing_driver (k : nat) (e : error) : Driver := {|
  stmt_close := stmt_close sql_driver;
  stmt_exec := fun tr _ _ =>
    if Nat.eqb (List.length tr) k then (Result_nil, Some e) else (Result_of 0 1, None);
  stmt_query_row := stmt_query_row sql_driver;
  tx_exec := tx_exec sql_driver;
  tx_prepare := tx_prepare sql_driver;
  tx_query_row := tx_query_row sql_driver;
  tx_commit := tx_commit sql_driver;
  tx_rollback := tx_rollback sql_driver;
  row_scan := row_scan sql_driver
|}.

(** As [sql_driver], but every query matches no row: [Scan] reports
    [ErrNoRows] before it looks at the destinations. *)
Definition no_rows_driver : Driver := {|
  stmt_close := stmt_close sql_driver;
  stmt_exec := fun _ _ _ => (Result_of 0 0, None);
  stmt_query_row := stmt_query_row sql_driver;
  tx_exec := tx_exec sql_driver;
  tx_prepare := tx_prepare sql_driver;
  tx_query_row := tx_query_row sql_driver;
  tx_commit := tx_commit sql_driver;
  tx_rollback := tx_rollback sql_driver;
  row_scan := fun tr r _ =>
    if row_of_finished_tx tr r then Some sql_ErrTxDone else Some sql_ErrNoRows
|}.

(** The rows of the specification's scenario: [[1,"x"],[2,"y"]]. *)
Definition scenario_rows : list DbRowV :=
  [ {| DbRowV_V := [IInt 1; IString "x"] |};
    {| DbRowV_V := [IInt 2; IString "y"] |} ].

(** ** What a method may send *)

(** Everything a batch sends when nothing fails: one call per row, in order,
    then the flush. *)
Definition batch_calls (s : sqlStmt) (rows : list DbRowV) : list call :=
  map (row_call s) rows ++ [flush_call s].

(** The largest number of driver calls one run of a method can make. *)
Definition call_budget (op : operation) : nat :=
  match op with
  | OpBatchInsert _ rows => S (List.length rows)
  | _ => 1
  end.

(** * Properties *)

(** ** Values *)

(** A slice boxed as one operand is never the slice itself. *)
Lemma boxed_slice_differs (xs : list iface) : [ISlice xs] <> xs.
Proof.
  intro H.
  assert (E : list_sum (map iface_size [ISlice xs]) = list_sum (map iface_size xs))
    by (rewrite H at 1; reflexivity).
  simpl in E. lia.
Qed.

(** ** Query *)

Example Query_String_scenario :
  Query_String (NewQuery "INSERT INTO t(a,b) VALUES (?,?)" [IInt 1; IString "x"])
  = "[INSERT INTO t(a,b) VALUES (?,?), [1 x]]"%string.
Proof. reflexivity. Qed.

Example Query_String_no_arguments :
  Query_String (NewQuery "SELECT 1" []) = "[SELECT 1, []]"%string.
Proof. reflexivity. Qed.

(** C7: for every text and argument list, [NewQuery(text, args).String()] is
    the text between "[" and ", ", followed by the arguments as [%v] renders
    the slice (in brackets, separated by spaces), followed by "]". *)
Theorem Query_String_format (text : string) (args : list iface) :
  Query_String (NewQuery text args)
  = ("[" ++ text ++ ", " ++ fmt_v (ISlice args) ++ "]")%string
  /\ fmt_v (ISlice args) = ("[" ++ join_space (map fmt_v args) ++ "]")%string.
Proof.
  split; [| reflexivity].
  unfold Query_String, NewQuery; cbn [Query_Q Query_Args].
  cbn -[fmt_v]. reflexivity.
Qed.

(** ** Single forwarding calls *)

Section Forwarding.

Variable d : Driver.

Lemma DbStmt_Exec_live (s : sqlStmt) (args : list iface) (tr : trace) :
  DbStmt_Exec d {| DbStmt_S := Some s |} args tr
  = Returns (stmt_exec d tr s [ISlice args]) (tr ++ [StmtExec s [ISlice args]]).
Proof. reflexivity. Qed.

Lemma DbRow_Scan_live (r : sqlRow) (dest : list iface) (tr : trace) :
  DbRow_Scan d {| DbRow_R := Some r |} dest tr
  = Returns (row_scan d tr r [ISlice dest]) (tr ++ [RowScan r [ISlice dest]]).
Proof. reflexivity. Qed.

(** C3: [DbStmt.Exec] returns the driver's result and error, but the driver
    statement is executed with ONE operand, the slice holding the caller's
    arguments, which is never the caller's argument list. *)
Theorem DbStmt_Exec_boxes_arguments (s : sqlStmt) (args : list iface) (tr : trace) :
  DbStmt_Exec d {| DbStmt_S := Some s |} args tr
  = Returns (stmt_exec d tr s [ISlice args]) (tr ++ [StmtExec s [ISlice args]])
  /\ tr ++ [StmtExec s [ISlice args]] <> tr ++ [StmtExec s args].
Proof.
  split; [reflexivity |].
  intro H. apply app_inv_head in H.
  injection H as H. exact (boxed_slice_differs args H).
Qed.

(** C4: [DbRow.Scan] returns the driver row's error, but the driver row's
    scan receives ONE destination, the slice holding the caller's
    destinations, which is never the caller's destination list. *)
Theorem DbRow_Scan_boxes_destinations (r : sqlRow) (dest : list iface) (tr : trace) :
  DbRow_Scan d {| DbRow_R := Some r |} dest tr
  = Returns (row_scan d tr r [ISlice dest]) (tr ++ [RowScan r [ISlice dest]])
  /\ tr ++ [RowScan r [ISlice dest]] <> tr ++ [RowScan r dest].
Proof.
  split; [reflexivity |].
  intro H. apply app_inv_head in H.
  injection H as H. exact (boxed_slice_differs dest H).
Qed.

End Forwarding.

Example DbStmt_Exec_two_arguments :
  DbStmt_Exec quiet_driver {| DbStmt_S := Some 0 |} [IInt 1; IString "x"] []
  = Returns (Result_of 0 1, None) [StmtExec 0 [ISlice [IInt 1; IString "x"]]].
Proof. reflexivity. Qed.

Example DbRow_Scan_two_destinations :
  DbRow_Scan quiet_driver {| DbRow_R := Some 0 |} [IPtr 4096; IPtr 4104] []
  = Returns (Some (driver_error "destination not a pointer"))
      [RowScan 0 [ISlice [IPtr 4096; IPtr 4104]]].
Proof. reflexivity. Qed.

(** ** BatchInsert *)

Section Batch.

Variable d : Driver.

Lemma app_one_assoc (tr : trace) (c : call) (rest : trace) :
  (tr ++ [c]) ++ rest = tr ++ c :: rest.
Proof. rewrite <- app_assoc. reflexivity. Qed.

(** The loop runs to its end when no row fails. *)
Lemma BatchInsert_rows_all_succeed (s : sqlStmt) (rows : list DbRowV) :
  forall tr,
    (forall i r, nth_error rows i = Some r ->
       answer d (tr ++ map (row_call s) (firstn i rows)) (row_call s r) = None) ->
    BatchInsert_rows d {| DbStmt_S := Some s |} rows tr
    = Returns None (tr ++ map (row_call s) rows).
Proof.
  induction rows as [| r0 rest IH]; intros tr Hok.
  - simpl. rewrite app_nil_r. reflexivity.
  - pose proof (Hok 0 r0 eq_refl) as H0.
    simpl in H0. rewrite app_nil_r in H0.
    cbn [BatchInsert_rows]. unfold bind at 1.
    rewrite DbStmt_Exec_live. cbn [DbRowV_V].
    destruct (stmt_exec d tr s [ISlice (DbRowV_V r0)]) as [res err] eqn:E.
    simpl in H0. subst err. cbv beta iota.
    change (StmtExec s [ISlice (DbRowV_V r0)]) with (row_call s r0).
    rewrite IH.
    + simpl. rewrite app_one_assoc. reflexivity.
    + intros i r Hi.
      specialize (Hok (S i) r Hi). simpl in Hok.
      rewrite app_one_assoc. exact Hok.
Qed.

(** The loop leaves at the first row that fails. *)
Lemma BatchInsert_rows_first_error (s : sqlStmt) (rows : list DbRowV) :
  forall tr k r e,
    nth_error rows k = Some r ->
    (forall i ri, i < k -> nth_error rows i = Some ri ->
       answer d (tr ++ map (row_call s) (firstn i rows)) (row_call s ri) = None) ->
    answer d (tr ++ map (row_call s) (firstn k rows)) (row_call s r) = Some e ->
    BatchInsert_rows d {| DbStmt_S := Some s |} rows tr
    = Returns (Some e) (tr ++ map (row_call s) (firstn (S k) rows)).
Proof.
  induction rows as [| r0 rest IH]; intros tr k r e Hk Hbefore Hfail.
  - destruct k; discriminate.
  - cbn [BatchInsert_rows]. unfold bind at 1.
    rewrite DbStmt_Exec_live. cbn [DbRowV_V].
    destruct k as [| k'].
    + injection Hk as <-.
      simpl in Hfail. rewrite app_nil_r in Hfail.
      destruct (stmt_exec d tr s [ISlice (DbRowV_V r0)]) as [res err] eqn:E.
      simpl in Hfail. subst err. reflexivity.
    + pose proof (Hbefore 0 r0 (Nat.lt_0_succ k') eq_refl) as H0.
      simpl in H0. rewrite app_nil_r in H0.
      destruct (stmt_exec d tr s [ISlice (DbRowV_V r0)]) as [res err] eqn:E.
      simpl in H0. subst err. cbv beta iota.
      change (StmtExec s [ISlice (DbRowV_V r0)]) with (row_call s r0).
      rewrite (IH (tr ++ [row_call s r0]) k' r e).
      * change (firstn (S (S k')) (r0 :: rest)) with (r0 :: firstn (S k') rest).
        simpl map. rewrite app_one_assoc. reflexivity.
      * exact Hk.
      * intros i ri Hi Hnth.
        specialize (Hbefore (S i) ri (proj1 (Nat.succ_lt_mono i k') Hi) Hnth).
        simpl in Hbefore. rewrite app_one_assoc. exact Hbefore.
      * simpl in Hfail. rewrite app_one_assoc. exact Hfail.
Qed.

(** When every row succeeds the driver sees one call per row, in order, then
    the flush, and the flush decides the result. *)
Lemma BatchInsert_rows_then_flush (s : sqlStmt) (rows : list DbRowV) (tr : trace) :
  (forall i r, nth_error rows i = Some r ->
     answer d (tr ++ map (row_call s) (firstn i rows)) (row_call s r) = None) ->
  DbStmt_BatchInsert d {| DbStmt_S := Some s |} rows tr
  = Returns (answer d (tr ++ map (row_call s) rows) (flush_call s))
            (tr ++ map (row_call s) rows ++ [flush_call s]).
Proof.
  intro Hok. unfold DbStmt_BatchInsert, bind at 1.
  rewrite (BatchInsert_rows_all_succeed s rows tr Hok).
  unfold bind. rewrite DbStmt_Exec_live.
  unfold flush_call, answer.
  destruct (stmt_exec d (tr ++ map (row_call s) rows) s [ISlice []]) as [res [e |]];
    simpl; rewrite <- app_assoc; reflexivity.
Qed.

(** C2: when row [k] fails with [e] and the rows before it succeed,
    [BatchInsert] returns [e], and the driver has seen the calls for rows
    [0..k] only: nothing for the rows after [k], and no flush. *)
Theorem BatchInsert_stops_at_first_error
  (s : sqlStmt) (rows : list DbRowV) (tr : trace) (k : nat) (r : DbRowV) (e : error) :
  nth_error rows k = Some r ->
  (forall i ri, i < k -> nth_error rows i = Some ri ->
     answer d (tr ++ map (row_call s) (firstn i rows)) (row_call s ri) = None) ->
  answer d (tr ++ map (row_call s) (firstn k rows)) (row_call s r) = Some e ->
  DbStmt_BatchInsert d {| DbStmt_S := Some s |} rows tr
  = Returns (Some e) (tr ++ map (row_call s) (firstn (S k) rows))
  /\ List.length (map (row_call s) (firstn (S k) rows)) = S k.
Proof.
  intros Hk Hbefore Hfail. split.
  - unfold DbStmt_BatchInsert, bind.
    rewrite (BatchInsert_rows_first_error s rows tr k r e Hk Hbefore Hfail).
    reflexivity.
  - rewrite length_map, length_firstn.
    assert (k < List.length rows) by (apply nth_error_Some; congruence).
    lia.
Qed.

End Batch.

(** The driver of the witness fails the call that arrives second. *)
Lemma BatchInsert_stops_at_first_error_witness :
  DbStmt_BatchInsert (failing_driver 1 (driver_error "duplicate key"))
    {| DbStmt_S := Some 0 |}
    (scenario_rows ++ [ {| DbRowV_V := [IInt 3; IString "z"] |} ]) []
  = Returns (Some (driver_error "duplicate key"))
      [StmtExec 0 [ISlice [IInt 1; IString "x"]];
       StmtExec 0 [ISlice [IInt 2; IString "y"]]].
Proof.
  refine (proj1 (BatchInsert_stops_at_first_error
            (failing_driver 1 (driver_error "duplicate key")) 0
            (scenario_rows ++ [ {| DbRowV_V := [IInt 3; IString "z"] |} ]) [] 1
            {| DbRowV_V := [IInt 2; IString "y"] |}
            (driver_error "duplicate key") _ _ _)).
  - reflexivity.
  - intros i ri Hi Hnth.
    destruct i as [| i]; [| lia].
    injection Hnth as <-. reflexivity.
  - reflexivity.
Defined.

(** C1: on the specification's scenario the driver statement is executed
    three times and [BatchInsert] returns nil, but each row reaches it as ONE
    operand (the slice of the row's values) and the flush carries one operand
    (the empty slice): not the rows' values bound by position followed by a
    call without operands. *)
Theorem BatchInsert_scenario_driver_calls :
  DbStmt_BatchInsert quiet_driver {| DbStmt_S := Some 0 |} scenario_rows []
  = Returns None
      [StmtExec 0 [ISlice [IInt 1; IString "x"]];
       StmtExec 0 [ISlice [IInt 2; IString "y"]];
       StmtExec 0 [ISlice []]]
  /\ [StmtExec 0 [ISlice [IInt 1; IString "x"]];
      StmtExec 0 [ISlice [IInt 2; IString "y"]];
      StmtExec 0 [ISlice []]]
     <> [StmtExec 0 [IInt 1; IString "x"];
         StmtExec 0 [IInt 2; IString "y"];
         StmtExec 0 []]
  /\ DbStmt_BatchInsert quiet_driver {| DbStmt_S := Some 0 |} [] []
     = Returns None [StmtExec 0 [ISlice []]].
Proof.
  split; [reflexivity |]. split; [discriminate | reflexivity].
Qed.

(** ** QueryRow *)

(** C5: [QueryRow], on the statement wrapper and on the transaction handle
    (also when called through the [Statement] and [Handle] interfaces),
    always returns after one driver call, and what it returns is a non-nil
    [Row] wrapping the very row the driver produced, with no error beside
    it.  [Scan] on that [Row] scans the driver's row and returns the
    driver's answer: every failure the driver reports there, no rows
    included, is what [Scan] returns. *)
Theorem QueryRow_defers_failure
  (d : Driver) (s : sqlStmt) (t : sqlTx) (q : string) (args dest : list iface)
  (tr tr' : trace) :
  (DbStmt_QueryRow d {| DbStmt_S := Some s |} args tr
   = Returns (Row_DbRow {| DbRow_R := Some (stmt_query_row d tr s [ISlice args]) |})
             (tr ++ [StmtQueryRow s [ISlice args]])
   /\ Statement_QueryRow d (Statement_DbStmt {| DbStmt_S := Some s |}) args tr
      = DbStmt_QueryRow d {| DbStmt_S := Some s |} args tr
   /\ Row_DbRow {| DbRow_R := Some (stmt_query_row d tr s [ISlice args]) |} <> Row_nil
   /\ Row_Scan d (Row_DbRow {| DbRow_R := Some (stmt_query_row d tr s [ISlice args]) |})
        dest tr'
      = Returns (row_scan d tr' (stmt_query_row d tr s [ISlice args]) [ISlice dest])
                (tr' ++ [RowScan (stmt_query_row d tr s [ISlice args]) [ISlice dest]])
   /\ (forall e,
         row_scan d tr' (stmt_query_row d tr s [ISlice args]) [ISlice dest] = Some e ->
         Row_Scan d (Row_DbRow {| DbRow_R := Some (stmt_query_row d tr s [ISlice args]) |})
           dest tr'
         = Returns (Some e)
             (tr' ++ [RowScan (stmt_query_row d tr s [ISlice args]) [ISlice dest]])))
  /\ (TxHandle_QueryRow d {| TxHandle_T := Some t |} q args tr
      = Returns (Row_DbRow {| DbRow_R := Some (tx_query_row d tr t q [ISlice args]) |})
                (tr ++ [TxQueryRow t q [ISlice args]])
      /\ Handle_QueryRow d (Handle_TxHandle {| TxHandle_T := Some t |}) q args tr
         = TxHandle_QueryRow d {| TxHandle_T := Some t |} q args tr
      /\ Row_DbRow {| DbRow_R := Some (tx_query_row d tr t q [ISlice args]) |} <> Row_nil
      /\ Row_Scan d (Row_DbRow {| DbRow_R := Some (tx_query_row d tr t q [ISlice args]) |})
           dest tr'
         = Returns (row_scan d tr' (tx_query_row d tr t q [ISlice args]) [ISlice dest])
                   (tr' ++ [RowScan (tx_query_row d tr t q [ISlice args]) [ISlice dest]])
      /\ (forall e,
            row_scan d tr' (tx_query_row d tr t q [ISlice args]) [ISlice dest] = Some e ->
            Row_Scan d (Row_DbRow {| DbRow_R := Some (tx_query_row d tr t q [ISlice args]) |})
              dest tr'
            = Returns (Some e)
                (tr' ++ [RowScan (tx_query_row d tr t q [ISlice args]) [ISlice dest]]))).
Proof.
  split.
  - split; [reflexivity |]. split; [reflexivity |]. split; [discriminate |].
    split; [reflexivity |].
    intros e He. rewrite <- He. reflexivity.
  - split; [reflexivity |]. split; [reflexivity |]. split; [discriminate |].
    split; [reflexivity |].
    intros e He. rewrite <- He. reflexivity.
Qed.

(** A query that matches no row: the row comes back, and [Scan] reports
    [sql.ErrNoRows]. *)
Example QueryRow_no_rows :
  (row <- TxHandle_QueryRow no_rows_driver {| TxHandle_T := Some 0 |}
            "SELECT a FROM t WHERE id = ?" [IInt 7] ;;
   Row_Scan no_rows_driver row [IPtr 4096]) []
  = Returns (Some sql_ErrNoRows)
      [TxQueryRow 0 "SELECT a FROM t WHERE id = ?" [ISlice [IInt 7]];
       RowScan 0 [ISlice [IPtr 4096]]].
Proof. reflexivity. Qed.

(** ** The Handle contract *)

(** One call on a fresh transaction: the driver transaction receives the
    slice as a single argument. *)
Example TxHandle_QueryRow_not_unchanged :
  TxHandle_QueryRow quiet_driver {| TxHandle_T := Some 0 |}
    "SELECT a FROM t WHERE id = ?" [IInt 7] []
  = Returns (Row_DbRow {| DbRow_R := Some 0 |})
      [TxQueryRow 0 "SELECT a FROM t WHERE id = ?" [ISlice [IInt 7]]]
  /\ [TxQueryRow 0 "SELECT a FROM t WHERE id = ?" [ISlice [IInt 7]]]
     <> [TxQueryRow 0 "SELECT a FROM t WHERE id = ?" [IInt 7]].
Proof. split; [reflexivity | discriminate]. Qed.

(** C6: on a live transaction the handle's [Exec], [Prepare], [Commit] and
    [Rollback] forward their operands unchanged and return what the driver
    returns ([Prepare] wrapping the driver's statement), also through the
    [Handle] interface.  [QueryRow] wraps the row the driver returns, but
    does not forward unchanged: the driver transaction receives the query
    and ONE argument, the slice holding the caller's arguments, which is
    never the caller's argument list. *)
Theorem TxHandle_forwards_but_boxes_QueryRow
  (d : Driver) (t : sqlTx) (q : string) (args : list iface) (tr : trace) :
  Handle_Exec d (Handle_TxHandle {| TxHandle_T := Some t |}) q args tr
  = Returns (tx_exec d tr t q args) (tr ++ [TxExec t q args])
  /\ Handle_Prepare d (Handle_TxHandle {| TxHandle_T := Some t |}) q tr
     = Returns (Statement_DbStmt {| DbStmt_S := fst (tx_prepare d tr t q) |},
                snd (tx_prepare d tr t q))
               (tr ++ [TxPrepare t q])
  /\ Handle_QueryRow d (Handle_TxHandle {| TxHandle_T := Some t |}) q args tr
     = Returns (Row_DbRow {| DbRow_R := Some (tx_query_row d tr t q [ISlice args]) |})
               (tr ++ [TxQueryRow t q [ISlice args]])
  /\ tr ++ [TxQueryRow t q [ISlice args]] <> tr ++ [TxQueryRow t q args]
  /\ TxHandle_Commit d {| TxHandle_T := Some t |} tr
     = Returns (tx_commit d tr t) (tr ++ [TxCommit t])
  /\ TxHandle_Rollback d {| TxHandle_T := Some t |} tr
     = Returns (tx_rollback d tr t) (tr ++ [TxRollback t]).
Proof.
  split; [reflexivity |]. split.
  - cbn. unfold bind, deref, perform. cbn.
    destruct (tx_prepare d tr t q) as [st err]. reflexivity.
  - split; [reflexivity |]. split.
    + intro H. apply app_inv_head in H. injection H as H.
      exact (boxed_slice_differs args H).
    + split; reflexivity.
Qed.

(** ** Prepare *)

(** C9: when the driver's [Prepare] fails, giving a nil statement and an
    error, the transaction handle's [Prepare] returns that error beside a
    [Statement] that is not nil and wraps the nil driver statement; every
    method called on it panics. *)
Theorem TxHandle_Prepare_failure_wraps_nil
  (d : Driver) (t : sqlTx) (q : string) (tr : trace) (e : error) :
  tx_prepare d tr t q = (None, Some e) ->
  TxHandle_Prepare d {| TxHandle_T := Some t |} q tr
  = Returns (Statement_DbStmt {| DbStmt_S := None |}, Some e) (tr ++ [TxPrepare t q])
  /\ Statement_DbStmt {| DbStmt_S := None |} <> Statement_nil
  /\ (forall args tr',
        Statement_Exec d (Statement_DbStmt {| DbStmt_S := None |}) args tr' = Panics tr'
        /\ Statement_QueryRow d (Statement_DbStmt {| DbStmt_S := None |}) args tr'
           = Panics tr'
        /\ Statement_Close d (Statement_DbStmt {| DbStmt_S := None |}) tr' = Panics tr').
Proof.
  intro Hfail. split; [| split].
  - unfold TxHandle_Prepare, bind, deref, perform. cbn.
    rewrite Hfail. reflexivity.
  - discriminate.
  - intros args tr'. repeat split.
Qed.

(** The transaction of the witness was committed before the [Prepare]. *)
Lemma TxHandle_Prepare_failure_wraps_nil_witness :
  TxHandle_Prepare sql_driver {| TxHandle_T := Some 0 |} "INSERT INTO t(a,b) VALUES (?,?)"
    [TxCommit 0]
  = Returns (Statement_DbStmt {| DbStmt_S := None |}, Some sql_ErrTxDone)
      [TxCommit 0; TxPrepare 0 "INSERT INTO t(a,b) VALUES (?,?)"].
Proof.
  exact (proj1 (TxHandle_Prepare_failure_wraps_nil sql_driver 0
                  "INSERT INTO t(a,b) VALUES (?,?)" [TxCommit 0] sql_ErrTxDone
                  eq_refl)).
Defined.

(** ** Transactions *)

Section Life_cycle.

Variable d : Driver.
Variable t : sqlTx.

Lemma tx_step_terminal (st : TxState) (tr : trace) (c : call) :
  st <> Open -> tx_step d t st tr c = st.
Proof. destruct st; [congruence | reflexivity | reflexivity]. Qed.

Lemma tx_run_terminal (st : TxState) (rest : trace) :
  forall tr, st <> Open -> tx_run d t st tr rest = st.
Proof.
  induction rest as [| c rest IH]; intros tr Hst; [reflexivity |].
  simpl. rewrite tx_step_terminal by exact Hst. apply IH. exact Hst.
Qed.

Lemma tx_run_app (a b : trace) :
  forall st tr,
    tx_run d t st tr (a ++ b) = tx_run d t (tx_run d t st tr a) (tr ++ a) b.
Proof.
  induction a as [| c a IH]; intros st tr.
  - simpl. rewrite app_nil_r. reflexivity.
  - simpl. rewrite IH. rewrite app_one_assoc. reflexivity.
Qed.

Lemma tx_state_app (tr more : trace) :
  tx_state d t (tr ++ more) = tx_run d t (tx_state d t tr) tr more.
Proof. unfold tx_state. rewrite tx_run_app. reflexivity. Qed.

(** Once a transaction has left Open, no later call changes its state. *)
Lemma tx_state_stays (tr more : trace) :
  tx_state d t tr <> Open -> tx_state d t (tr ++ more) = tx_state d t tr.
Proof. intro H. rewrite tx_state_app. apply tx_run_terminal. exact H. Qed.

Lemma tx_state_after_commit (tr : trace) :
  tx_state d t tr = Open -> tx_commit d tr t = None ->
  tx_state d t (tr ++ [TxCommit t]) = Committed.
Proof.
  intros Hopen Hok. rewrite tx_state_app, Hopen. simpl.
  rewrite Nat.eqb_refl, Hok. reflexivity.
Qed.

Lemma tx_state_after_rollback (tr : trace) :
  tx_state d t tr = Open -> tx_state d t (tr ++ [TxRollback t]) = RolledBack.
Proof.
  intros Hopen. rewrite tx_state_app, Hopen. simpl.
  rewrite Nat.eqb_refl. reflexivity.
Qed.

End Life_cycle.

(** *** The contract of [*sql.Tx] *)

Lemma tx_done_after_commit (t : sqlTx) (tr more : trace) :
  tx_done ((tr ++ [TxCommit t]) ++ more) t = true.
Proof.
  unfold tx_done. rewrite !existsb_app. simpl.
  rewrite Nat.eqb_refl. rewrite !orb_true_r. reflexivity.
Qed.

Lemma nth_error_at_length (tr after : trace) (c : call) :
  nth_error ((tr ++ [c]) ++ after) (List.length tr) = Some c.
Proof. induction tr as [| c0 tr IH]; [reflexivity | exact IH]. Qed.

Lemma firstn_at_length (tr after : trace) (c : call) :
  firstn (List.length tr) ((tr ++ [c]) ++ after) = tr.
Proof.
  induction tr as [| c0 tr IH]; [reflexivity |].
  simpl. f_equal. exact IH.
Qed.

(** The model drivers keep the contract, whatever the backend answers to a
    commit. *)
Lemma sql_Tx_driver_keeps_contract (commit_answer : option error) :
  keeps_sql_Tx_contract (sql_Tx_driver commit_answer).
Proof.
  intros tr t Hdone. simpl. rewrite Hdone.
  split; [reflexivity |]. split; [reflexivity |].
  split; [reflexivity |]. split; [reflexivity |].
  intros q args after dest.
  unfold row_of_finished_tx.
  rewrite nth_error_at_length, firstn_at_length, Hdone. reflexivity.
Qed.

(** C8: the handle keeps no state; the life cycle is that of the [*sql.Tx]
    it wraps, whose contract is the hypothesis.  A transaction starts Open;
    [Commit] and [Rollback] go to the driver transaction and return its
    answer; a [Commit] the driver accepts moves an Open transaction to
    Committed and a [Rollback] moves it to Rolled-back, and no later call
    moves it again.  At any time after [Commit] has been called (accepted or
    not), [Exec], [Prepare], [Commit] and [Rollback] through the handle
    return the driver's [ErrTxDone], and [QueryRow], which has no error
    result, returns a row on which [Scan] returns [ErrTxDone]: no call
    succeeds silently. *)
Theorem Transaction_life_cycle
  (d : Driver) (t : sqlTx) (tr more after : trace) (q : string)
  (args dest : list iface) :
  keeps_sql_Tx_contract d ->
  tx_state d t [] = Open
  /\ TxHandle_Commit d {| TxHandle_T := Some t |} tr
     = Returns (tx_commit d tr t) (tr ++ [TxCommit t])
  /\ TxHandle_Rollback d {| TxHandle_T := Some t |} tr
     = Returns (tx_rollback d tr t) (tr ++ [TxRollback t])
  /\ (tx_state d t tr = Open -> tx_commit d tr t = None ->
      tx_state d t ((tr ++ [TxCommit t]) ++ more) = Committed)
  /\ (tx_state d t tr = Open ->
      tx_state d t ((tr ++ [TxRollback t]) ++ more) = RolledBack)
  /\ TxHandle_Exec d {| TxHandle_T := Some t |} q args ((tr ++ [TxCommit t]) ++ more)
     = Returns (fst (tx_exec d ((tr ++ [TxCommit t]) ++ more) t q args),
                Some sql_ErrTxDone)
               (((tr ++ [TxCommit t]) ++ more) ++ [TxExec t q args])
  /\ TxHandle_Prepare d {| TxHandle_T := Some t |} q ((tr ++ [TxCommit t]) ++ more)
     = Returns (Statement_DbStmt {| DbStmt_S := None |}, Some sql_ErrTxDone)
               (((tr ++ [TxCommit t]) ++ more) ++ [TxPrepare t q])
  /\ TxHandle_Commit d {| TxHandle_T := Some t |} ((tr ++ [TxCommit t]) ++ more)
     = Returns (Some sql_ErrTxDone) (((tr ++ [TxCommit t]) ++ more) ++ [TxCommit t])
  /\ TxHandle_Rollback d {| TxHandle_T := Some t |} ((tr ++ [TxCommit t]) ++ more)
     = Returns (Some sql_ErrTxDone) (((tr ++ [TxCommit t]) ++ more) ++ [TxRollback t])
  /\ TxHandle_QueryRow d {| TxHandle_T := Some t |} q args ((tr ++ [TxCommit t]) ++ more)
     = Returns
         (Row_DbRow {| DbRow_R :=
            Some (tx_query_row d ((tr ++ [TxCommit t]) ++ more) t q [ISlice args]) |})
         (((tr ++ [TxCommit t]) ++ more) ++ [TxQueryRow t q [ISlice args]])
  /\ Row_Scan d
       (Row_DbRow {| DbRow_R :=
          Some (tx_query_row d ((tr ++ [TxCommit t]) ++ more) t q [ISlice args]) |})
       dest
       ((((tr ++ [TxCommit t]) ++ more) ++ [TxQueryRow t q [ISlice args]]) ++ after)
     = Returns (Some sql_ErrTxDone)
         (((((tr ++ [TxCommit t]) ++ more) ++ [TxQueryRow t q [ISlice args]]) ++ after)
          ++ [RowScan (tx_query_row d ((tr ++ [TxCommit t]) ++ more) t q [ISlice args])
                [ISlice dest]]).
Proof.
  intro Hsql.
  destruct (Hsql _ t (tx_done_after_commit t tr more))
    as (Hexec & Hprep & Hcommit & Hroll & Hscan).
  split; [reflexivity |].
  split; [reflexivity |].
  split; [reflexivity |].
  split.
  { intros Hopen Hok.
    rewrite tx_state_stays; rewrite (tx_state_after_commit d t tr Hopen Hok);
      [reflexivity | discriminate]. }
  split.
  { intros Hopen.
    rewrite tx_state_stays; rewrite (tx_state_after_rollback d t tr Hopen);
      [reflexivity | discriminate]. }
  split.
  { unfold TxHandle_Exec, bind, deref, perform; cbn.
    specialize (Hexec q args).
    destruct (tx_exec d ((tr ++ [TxCommit t]) ++ more) t q args) as [res err].
    simpl in Hexec. subst err. reflexivity. }
  split.
  { unfold TxHandle_Prepare, bind, deref, perform, ret; cbn.
    rewrite (Hprep q). reflexivity. }
  split.
  { unfold TxHandle_Commit, bind, deref, perform; cbn.
    rewrite Hcommit. reflexivity. }
  split.
  { unfold TxHandle_Rollback, bind, deref, perform; cbn.
    rewrite Hroll. reflexivity. }
  split; [reflexivity |].
  unfold Row_Scan, DbRow_Scan, bind, deref, perform; cbn.
  rewrite (Hscan q [ISlice args] after [ISlice dest]). reflexivity.
Qed.

(** In the witness the backend refuses the commit; the transaction is done
    all the same.  Another transaction works in between, and the insert
    that follows is answered [ErrTxDone]. *)
Lemma Transaction_life_cycle_witness :
  TxHandle_Exec (sql_Tx_driver (Some (driver_error "serialization failure")))
    {| TxHandle_T := Some 0 |} "INSERT INTO t(a) VALUES (?)" [IInt 1]
    (([] ++ [TxCommit 0]) ++ [TxExec 1 "DELETE FROM t" []])
  = Returns (Result_nil, Some sql_ErrTxDone)
      ((([] ++ [TxCommit 0]) ++ [TxExec 1 "DELETE FROM t" []])
       ++ [TxExec 0 "INSERT INTO t(a) VALUES (?)" [IInt 1]]).
Proof.
  exact (proj1 (proj2 (proj2 (proj2 (proj2 (proj2
           (Transaction_life_cycle
              (sql_Tx_driver (Some (driver_error "serialization failure")))
              0 [] [TxExec 1 "DELETE FROM t" []] []
              "INSERT INTO t(a) VALUES (?)" [IInt 1] []
              (sql_Tx_driver_keeps_contract
                 (Some (driver_error "serialization failure")))))))))).
Defined.

(** The same history seen from the caller: the refused commit returns the
    backend's error, the later insert returns [ErrTxDone], and a row asked
    for afterwards fails on [Scan]. *)
Example use_after_refused_commit :
  (e1 <- TxHandle_Commit (sql_Tx_driver (Some (driver_error "serialization failure")))
           {| TxHandle_T := Some 0 |} ;;
   x <- TxHandle_Exec (sql_Tx_driver (Some (driver_error "serialization failure")))
          {| TxHandle_T := Some 0 |} "INSERT INTO t(a) VALUES (?)" [IInt 1] ;;
   row <- TxHandle_QueryRow (sql_Tx_driver (Some (driver_error "serialization failure")))
            {| TxHandle_T := Some 0 |} "SELECT a FROM t" [] ;;
   e3 <- Row_Scan (sql_Tx_driver (Some (driver_error "serialization failure")))
           row [IPtr 4096] ;;
   ret (e1, snd x, e3)) []
  = Returns (Some (driver_error "serialization failure"),
             Some sql_ErrTxDone, Some sql_ErrTxDone)
      [TxCommit 0; TxExec 0 "INSERT INTO t(a) VALUES (?)" [IInt 1];
       TxQueryRow 0 "SELECT a FROM t" [ISlice []];
       RowScan 2 [ISlice [IPtr 4096]]].
Proof. reflexivity. Qed.

(** ** Errors *)

Section Errors.

Variable d : Driver.

(** An error that leaves the loop is the driver's answer to the last call. *)
Lemma BatchInsert_rows_error_is_last_answer (st : DbStmt) (rows : list DbRowV) :
  forall tr e tr',
    BatchInsert_rows d st rows tr = Returns (Some e) tr' ->
    exists pre c, tr' = pre ++ [c] /\ Some e = answer d pre c.
Proof.
  destruct st as [[s |]].
  - induction rows as [| r0 rest IH]; intros tr e tr' H.
    + discriminate.
    + cbn [BatchInsert_rows] in H. unfold bind at 1 in H.
      rewrite DbStmt_Exec_live in H.
      destruct (stmt_exec d tr s [ISlice (DbRowV_V r0)]) as [res [e0 |]] eqn:E;
        cbv beta iota in H.
      * injection H as -> <-.
        exists tr, (StmtExec s [ISlice (DbRowV_V r0)]).
        split; [reflexivity |]. simpl. rewrite E. reflexivity.
      * exact (IH _ _ _ H).
  - intros tr e tr' H. destruct rows; discriminate.
Qed.

(** C10: whenever a method of the layer returns, the error it returns (nil
    included) is the driver's answer to the last call the method made,
    unchanged; so on a driver that does not itself answer with one of the
    eight package variables, no method ever returns one of them. *)
Theorem layer_errors_are_driver_errors
  (op : operation) (tr : trace) (err : option error) (tr' : trace) :
  returned_error d op tr = Returns err tr' ->
  (exists pre c, tr' = pre ++ [c] /\ err = answer d pre c)
  /\ (sentinel_free d -> forall e, err = Some e -> is_sentinel e = false).
Proof.
  intro H.
  assert (Hlast : exists pre c, tr' = pre ++ [c] /\ err = answer d pre c).
  { destruct op as [[[r |]] dest | [[s |]] | [[s |]] args | [[s |]] args
                    | st rows | [[t |]] q args | [[t |]] q | [[t |]] q args
                    | [[t |]] | [[t |]]];
      try discriminate;
      try (injection H as <- <-; eexists; eexists; split; reflexivity).
    - cbn [returned_error] in H. unfold DbStmt_BatchInsert, bind at 1 in H.
      destruct (BatchInsert_rows d st rows tr) as [[e |] tr1 | tr1] eqn:E.
      + injection H as <- <-.
        exact (BatchInsert_rows_error_is_last_answer st rows tr e tr1 E).
      + destruct st as [[s |]]; [| discriminate].
        unfold bind in H. rewrite DbStmt_Exec_live in H.
        destruct (stmt_exec d tr1 s [ISlice []]) as [res [e |]] eqn:E1;
          injection H as <- <-; exists tr1, (StmtExec s [ISlice []]);
          (split; [reflexivity | simpl; rewrite E1; reflexivity]).
      + discriminate.
    - cbn in H. unfold bind, deref, perform in H. cbn in H.
      destruct (tx_prepare d tr t q) as [s err0] eqn:E.
      injection H as <- <-. exists tr, (TxPrepare t q).
      split; [reflexivity |]. simpl. rewrite E. reflexivity. }
  split; [exact Hlast |].
  intros Hfree e ->. destruct Hlast as (pre & c & _ & Hans).
  exact (Hfree pre c e (eq_sym Hans)).
Qed.

End Errors.

Lemma failing_driver_sentinel_free (k : nat) (text : string) :
  sentinel_free (failing_driver k (driver_error text)).
Proof.
  intros tr c e H.
  destruct c; cbn in H; unfold scan_destinations in H;
    repeat match type of H with
      | context [if ?b then _ else _] => destruct b; cbn in H
      end;
    try discriminate; injection H as <-; reflexivity.
Qed.

(** The witness is the batch that fails at its second row. *)
Lemma layer_errors_are_driver_errors_witness :
  (exists pre c,
      [StmtExec 0 [ISlice [IInt 1; IString "x"]];
       StmtExec 0 [ISlice [IInt 2; IString "y"]]] = pre ++ [c]
      /\ Some (driver_error "duplicate key")
         = answer (failing_driver 1 (driver_error "duplicate key")) pre c)
  /\ (sentinel_free (failing_driver 1 (driver_error "duplicate key")) ->
      forall e, Some (driver_error "duplicate key") = Some e -> is_sentinel e = false).
Proof.
  exact (layer_errors_are_driver_errors (failing_driver 1 (driver_error "duplicate key"))
           (OpBatchInsert {| DbStmt_S := Some 0 |} scenario_rows) []
           (Some (driver_error "duplicate key"))
           [StmtExec 0 [ISlice [IInt 1; IString "x"]];
            StmtExec 0 [ISlice [IInt 2; IString "y"]]]
           eq_refl).
Defined.

(** * Further properties of the code *)

(** ** Lists of rows *)

Lemma nth_error_firstn_app {A : Type} (l later : list A) :
  forall n i x,
    i < n -> nth_error l i = Some x ->
    nth_error (firstn n l ++ later) i = Some x.
Proof.
  induction l as [| a l IH]; intros n i x Hin Hx.
  - destruct i; discriminate.
  - destruct n as [| n]; [lia |].
    destruct i as [| i]; [exact Hx |].
    simpl. apply IH; [lia | exact Hx].
Qed.

Lemma firstn_firstn_app {A : Type} (l later : list A) :
  forall n i,
    i <= n -> n <= List.length l ->
    firstn i (firstn n l ++ later) = firstn i l.
Proof.
  induction l as [| a l IH]; intros n i Hin Hn.
  - simpl in Hn. assert (n = 0) by lia. subst n.
    assert (i = 0) by lia. subst i. reflexivity.
  - destruct i as [| i]; [reflexivity |].
    destruct n as [| n]; [lia |].
    simpl. f_equal. apply IH; simpl in Hn; lia.
Qed.

(** ** BatchInsert, for every driver *)

Section Batch_outcomes.

Variable d : Driver.

(** Along the calls of a batch, either some row is the first to be refused
    or every row is accepted. *)
Lemma first_refused_row (s : sqlStmt) (rows : list DbRowV) :
  forall tr,
    (exists k r e,
        nth_error rows k = Some r
        /\ (forall i ri, i < k -> nth_error rows i = Some ri ->
              answer d (tr ++ map (row_call s) (firstn i rows)) (row_call s ri) = None)
        /\ answer d (tr ++ map (row_call s) (firstn k rows)) (row_call s r) = Some e)
    \/ (forall i r, nth_error rows i = Some r ->
          answer d (tr ++ map (row_call s) (firstn i rows)) (row_call s r) = None).
Proof.
  induction rows as [| r0 rest IH]; intros tr.
  - right. intros [| i] r H; discriminate.
  - destruct (answer d tr (row_call s r0)) as [e |] eqn:E0.
    + left. exists 0, r0, e. split; [reflexivity |]. split; [intros; lia |].
      simpl. rewrite app_nil_r. exact E0.
    + destruct (IH (tr ++ [row_call s r0])) as [(k & r & e & Hk & Hbefore & Hfail) | Hall].
      * left. exists (S k), r, e. split; [exact Hk |]. split.
        -- intros [| i] ri Hi Hnth.
           ++ injection Hnth as <-. simpl. rewrite app_nil_r. exact E0.
           ++ simpl. rewrite <- app_one_assoc. apply Hbefore; [lia | exact Hnth].
        -- simpl. rewrite <- app_one_assoc. exact Hfail.
      * right. intros [| i] r Hnth.
        -- injection Hnth as <-. simpl. rewrite app_nil_r. exact E0.
        -- simpl. rewrite <- app_one_assoc. apply Hall. exact Hnth.
Qed.

(** A batch on a live statement always returns, in one of two ways. *)
Lemma BatchInsert_cases (s : sqlStmt) (rows : list DbRowV) (tr : trace) :
  (exists k r e,
      nth_error rows k = Some r
      /\ answer d (tr ++ map (row_call s) (firstn k rows)) (row_call s r) = Some e
      /\ DbStmt_BatchInsert d {| DbStmt_S := Some s |} rows tr
         = Returns (Some e) (tr ++ map (row_call s) (firstn (S k) rows)))
  \/ ((forall i r, nth_error rows i = Some r ->
         answer d (tr ++ map (row_call s) (firstn i rows)) (row_call s r) = None)
      /\ DbStmt_BatchInsert d {| DbStmt_S := Some s |} rows tr
         = Returns (answer d (tr ++ map (row_call s) rows) (flush_call s))
                   (tr ++ batch_calls s rows)).
Proof.
  destruct (first_refused_row s rows tr) as [(k & r & e & Hk & Hbefore & Hfail) | Hall].
  - left. exists k, r, e. split; [exact Hk |]. split; [exact Hfail |].
    unfold DbStmt_BatchInsert, bind.
    rewrite (BatchInsert_rows_first_error d s rows tr k r e Hk Hbefore Hfail).
    reflexivity.
  - right. split; [exact Hall |].
    exact (BatchInsert_rows_then_flush d s rows tr Hall).
Qed.

(** X2: [BatchInsert] returns nil exactly when the driver accepted every row
    call and the flush; the driver has then seen the whole batch, in order,
    and nothing else. *)
Theorem BatchInsert_nil_iff_all_accepted
  (s : sqlStmt) (rows : list DbRowV) (tr : trace) :
  (DbStmt_BatchInsert d {| DbStmt_S := Some s |} rows tr
   = Returns None (tr ++ batch_calls s rows)
   <-> (forall i r, nth_error rows i = Some r ->
          answer d (tr ++ map (row_call s) (firstn i rows)) (row_call s r) = None)
       /\ answer d (tr ++ map (row_call s) rows) (flush_call s) = None)
  /\ (forall tr',
        DbStmt_BatchInsert d {| DbStmt_S := Some s |} rows tr = Returns None tr' ->
        tr' = tr ++ batch_calls s rows).
Proof.
  destruct (BatchInsert_cases s rows tr) as [(k & r & e & Hk & Hfail & Hrun) | [Hall Hrun]].
  - split; [split |].
    + intro H. rewrite Hrun in H. discriminate.
    + intros [Hall _]. rewrite (Hall k r Hk) in Hfail. discriminate.
    + intros tr' H. rewrite Hrun in H. discriminate.
  - split; [split |].
    + intro H. rewrite Hrun in H. injection H as H. split; [exact Hall | exact H].
    + intros [_ Hflush]. rewrite Hrun, Hflush. reflexivity.
    + intros tr' H. rewrite Hrun in H. injection H as _ H. symmetry. exact H.
Qed.

(** X3: on a live statement [BatchInsert] always returns, and what it has sent
    is a non-empty initial part of the batch (row calls in order, then the
    flush); it returns nil only if nothing of the batch is left unsent. *)
Theorem BatchInsert_sends_a_prefix (s : sqlStmt) (rows : list DbRowV) (tr : trace) :
  exists err sent unsent,
    DbStmt_BatchInsert d {| DbStmt_S := Some s |} rows tr = Returns err (tr ++ sent)
    /\ batch_calls s rows = sent ++ unsent
    /\ sent <> []
    /\ (err = None -> unsent = []).
Proof.
  destruct (BatchInsert_cases s rows tr) as [(k & r & e & Hk & Hfail & Hrun) | [Hall Hrun]].
  - exists (Some e), (map (row_call s) (firstn (S k) rows)),
      (map (row_call s) (skipn (S k) rows) ++ [flush_call s]).
    split; [exact Hrun |]. split; [| split].
    + unfold batch_calls. rewrite app_assoc, <- map_app, firstn_skipn. reflexivity.
    + destruct rows; [destruct k; discriminate | discriminate].
    + discriminate.
  - exists (answer d (tr ++ map (row_call s) rows) (flush_call s)),
      (batch_calls s rows), [].
    split; [exact Hrun |]. split; [| split].
    + rewrite app_nil_r. reflexivity.
    + unfold batch_calls. destruct (map (row_call s) rows); discriminate.
    + reflexivity.
Qed.

(** X4: rows after the first refused row play no part: replacing them by any
    other rows leaves the outcome of [BatchInsert] unchanged. *)
Theorem BatchInsert_ignores_rows_after_failure
  (s : sqlStmt) (rows later : list DbRowV) (tr : trace) (k : nat) (r : DbRowV)
  (e : error) :
  nth_error rows k = Some r ->
  (forall i ri, i < k -> nth_error rows i = Some ri ->
     answer d (tr ++ map (row_call s) (firstn i rows)) (row_call s ri) = None) ->
  answer d (tr ++ map (row_call s) (firstn k rows)) (row_call s r) = Some e ->
  DbStmt_BatchInsert d {| DbStmt_S := Some s |} (firstn (S k) rows ++ later) tr
  = DbStmt_BatchInsert d {| DbStmt_S := Some s |} rows tr.
Proof.
  intros Hk Hbefore Hfail.
  assert (Hlen : S k <= List.length rows)
    by (apply Nat.le_succ_l, nth_error_Some; congruence).
  unfold DbStmt_BatchInsert, bind.
  rewrite (BatchInsert_rows_first_error d s rows tr k r e Hk Hbefore Hfail).
  rewrite (BatchInsert_rows_first_error d s (firstn (S k) rows ++ later) tr k r e).
  - rewrite firstn_firstn_app by lia. reflexivity.
  - apply nth_error_firstn_app; [lia | exact Hk].
  - intros i ri Hi Hnth.
    rewrite firstn_firstn_app by lia.
    apply Hbefore; [exact Hi |].
    destruct (nth_error rows i) as [ri' |] eqn:Ei.
    + rewrite (nth_error_firstn_app rows later (S k) i ri') in Hnth by (lia || exact Ei).
      exact Hnth.
    + exfalso. apply nth_error_None in Ei. lia.
  - rewrite firstn_firstn_app by lia. exact Hfail.
Qed.

(** X5: the loop over two lists in a row is the loop over the first and then,
    unless a row was refused, the loop over the second from the history the
    first has left. *)
Theorem BatchInsert_rows_app (st : DbStmt) (a b : list DbRowV) :
  forall tr,
    BatchInsert_rows d st (a ++ b) tr
    = (early <- BatchInsert_rows d st a ;;
       match early with
       | Some e => ret (Some e)
       | None => BatchInsert_rows d st b
       end) tr.
Proof.
  induction a as [| r0 rest IH]; intros tr; [reflexivity |].
  change ((r0 :: rest) ++ b) with (r0 :: (rest ++ b)).
  cbn [BatchInsert_rows]. unfold bind.
  destruct (DbStmt_Exec d st (DbRowV_V r0) tr) as [[res [e |]] tr1 | tr1];
    [reflexivity | | reflexivity].
  rewrite IH. reflexivity.
Qed.

End Batch_outcomes.

(** X1: when the driver accepts every row, [BatchInsert] has sent the whole
    batch and returns what the driver answered to the flush: a refused flush
    fails the batch although every row was accepted. *)
Theorem BatchInsert_all_rows_accepted
  (d : Driver) (s : sqlStmt) (rows : list DbRowV) (tr : trace) :
  (forall i r, nth_error rows i = Some r ->
     answer d (tr ++ map (row_call s) (firstn i rows)) (row_call s r) = None) ->
  DbStmt_BatchInsert d {| DbStmt_S := Some s |} rows tr
  = Returns (answer d (tr ++ map (row_call s) rows) (flush_call s))
            (tr ++ batch_calls s rows).
Proof. intro Hall. exact (BatchInsert_rows_then_flush d s rows tr Hall). Qed.

(** The driver of the witness accepts both rows and refuses the flush. *)
Lemma BatchInsert_all_rows_accepted_witness :
  DbStmt_BatchInsert (failing_driver 2 (driver_error "connection lost"))
    {| DbStmt_S := Some 0 |} scenario_rows []
  = Returns (Some (driver_error "connection lost"))
      [StmtExec 0 [ISlice [IInt 1; IString "x"]];
       StmtExec 0 [ISlice [IInt 2; IString "y"]];
       StmtExec 0 [ISlice []]].
Proof.
  refine (BatchInsert_all_rows_accepted
            (failing_driver 2 (driver_error "connection lost")) 0 scenario_rows [] _).
  intros i r Hnth.
  destruct i as [| [| i]].
  - reflexivity.
  - reflexivity.
  - destruct i; discriminate.
Defined.

(** In the witness the second of three rows is refused, and the third row is
    replaced by another. *)
Lemma BatchInsert_ignores_rows_after_failure_witness :
  DbStmt_BatchInsert (failing_driver 1 (driver_error "duplicate key"))
    {| DbStmt_S := Some 0 |}
    (firstn 2 (scenario_rows ++ [ {| DbRowV_V := [IInt 3; IString "z"] |} ])
     ++ [ {| DbRowV_V := [INil] |} ]) []
  = DbStmt_BatchInsert (failing_driver 1 (driver_error "duplicate key"))
      {| DbStmt_S := Some 0 |}
      (scenario_rows ++ [ {| DbRowV_V := [IInt 3; IString "z"] |} ]) [].
Proof.
  refine (BatchInsert_ignores_rows_after_failure
            (failing_driver 1 (driver_error "duplicate key")) 0
            (scenario_rows ++ [ {| DbRowV_V := [IInt 3; IString "z"] |} ])
            [ {| DbRowV_V := [INil] |} ] [] 1
            {| DbRowV_V := [IInt 2; IString "y"] |}
            (driver_error "duplicate key") _ _ _).
  - reflexivity.
  - intros i ri Hi Hnth.
    destruct i as [| i]; [| lia].
    reflexivity.
  - reflexivity.
Defined.

Lemma BatchInsert_nil_statement (d : Driver) (rows : list DbRowV) (tr : trace) :
  DbStmt_BatchInsert d {| DbStmt_S := None |} rows tr = Panics tr.
Proof. destruct rows; reflexivity. Qed.

(** X6: a statement that wraps no driver statement (what [Prepare] hands back
    when the driver fails) makes [BatchInsert] panic for every list of rows,
    the empty one included, before anything is sent. *)
Theorem BatchInsert_on_nil_statement_panics
  (d : Driver) (rows : list DbRowV) (tr : trace) :
  DbStmt_BatchInsert d {| DbStmt_S := None |} rows tr = Panics tr.
Proof. destruct rows; reflexivity. Qed.

(** ** Every method *)

(** X7: whenever a method returns it has made at least one driver call and at
    most its budget: one call, or one per row and the flush for
    [BatchInsert]; nothing is retried.  The history it was given is kept as
    it was, and a method that panics has sent nothing. *)
Theorem methods_keep_to_call_budget (d : Driver) (op : operation) (tr : trace) :
  match returned_error d op tr with
  | Returns _ tr' =>
      exists sent, tr' = tr ++ sent /\ 1 <= List.length sent <= call_budget op
  | Panics tr' => tr' = tr
  end.
Proof.
  destruct op as [[[r |]] dest | [[s |]] | [[s |]] args | [[s |]] args
                  | [[s |]] rows | [[t |]] q args | [[t |]] q | [[t |]] q args
                  | [[t |]] | [[t |]]];
    try reflexivity;
    try (eexists; split; [reflexivity | simpl; lia]).
  - cbn [returned_error call_budget].
    destruct (BatchInsert_cases d s rows tr)
      as [(k & r0 & e & Hk & _ & Hrun) | [_ Hrun]]; rewrite Hrun.
    + eexists. split; [reflexivity |].
      rewrite length_map, length_firstn.
      assert (k < List.length rows) by (apply nth_error_Some; congruence).
      lia.
    + eexists. split; [reflexivity |].
      unfold batch_calls. rewrite length_app, length_map. simpl. lia.
  - cbn [returned_error]. rewrite BatchInsert_nil_statement.
    reflexivity.
  - cbn. unfold bind, deref, perform. cbn.
    destruct (tx_prepare d tr t q) as [st err].
    eexists. split; [reflexivity | simpl; lia].
Qed.

(** ** QueryRow, Prepare and Close *)

(** X8: both [QueryRow] methods hand the driver ONE operand, the slice holding
    the caller's arguments, however many arguments the caller gave; that
    operand list is never the caller's argument list. *)
Theorem QueryRow_boxes_arguments
  (d : Driver) (s : sqlStmt) (t : sqlTx) (q : string) (args : list iface) (tr : trace) :
  DbStmt_QueryRow d {| DbStmt_S := Some s |} args tr
  = Returns (Row_DbRow {| DbRow_R := Some (stmt_query_row d tr s [ISlice args]) |})
            (tr ++ [StmtQueryRow s [ISlice args]])
  /\ TxHandle_QueryRow d {| TxHandle_T := Some t |} q args tr
     = Returns (Row_DbRow {| DbRow_R := Some (tx_query_row d tr t q [ISlice args]) |})
               (tr ++ [TxQueryRow t q [ISlice args]])
  /\ tr ++ [StmtQueryRow s [ISlice args]] <> tr ++ [StmtQueryRow s args]
  /\ tr ++ [TxQueryRow t q [ISlice args]] <> tr ++ [TxQueryRow t q args].
Proof.
  split; [reflexivity |]. split; [reflexivity |].
  split; intro H; apply app_inv_head in H; injection H as H;
    exact (boxed_slice_differs args H).
Qed.

(** X9: a caller that executes the statement [Prepare] returned without looking
    at the error reaches the driver statement when the driver produced one,
    and panics right after the prepare call when it produced none, whatever
    the error was. *)
Theorem Prepare_then_Exec
  (d : Driver) (t : sqlTx) (q : string) (args : list iface) (tr : trace) :
  (x <- TxHandle_Prepare d {| TxHandle_T := Some t |} q ;;
   Statement_Exec d (fst x) args) tr
  = match fst (tx_prepare d tr t q) with
    | Some s =>
        Returns (stmt_exec d (tr ++ [TxPrepare t q]) s [ISlice args])
                ((tr ++ [TxPrepare t q]) ++ [StmtExec s [ISlice args]])
    | None => Panics (tr ++ [TxPrepare t q])
    end.
Proof.
  unfold TxHandle_Prepare, Statement_Exec, DbStmt_Exec, bind, deref, perform, ret.
  cbn. destruct (tx_prepare d tr t q) as [[s |] err]; reflexivity.
Qed.

(** X10: the statement wrapper keeps no closed flag: after [Close], a second
    [Close] and an [Exec] still reach the driver statement, and their
    outcome is the driver's. *)
Theorem Close_does_not_disable_statement
  (d : Driver) (s : sqlStmt) (args : list iface) (tr : trace) :
  (_ <- DbStmt_Close d {| DbStmt_S := Some s |} ;;
   DbStmt_Close d {| DbStmt_S := Some s |}) tr
  = Returns (stmt_close d (tr ++ [StmtClose s]) s)
            ((tr ++ [StmtClose s]) ++ [StmtClose s])
  /\ (_ <- DbStmt_Close d {| DbStmt_S := Some s |} ;;
      DbStmt_Exec d {| DbStmt_S := Some s |} args) tr
     = Returns (stmt_exec d (tr ++ [StmtClose s]) s [ISlice args])
               ((tr ++ [StmtClose s]) ++ [StmtExec s [ISlice args]]).
Proof. split; reflexivity. Qed.

(** ** The error variables *)

(** X11: the eight error variables are eight different values with eight
    different messages, and [is_sentinel] recognises exactly them. *)
Theorem sentinels_are_distinct :
  List.length sentinels = 8
  /\ NoDup (map Error sentinels)
  /\ (forall e, is_sentinel e = true <-> In e sentinels).
Proof.
  split; [reflexivity |]. split.
  - unfold sentinels. simpl.
    repeat (constructor; [simpl; intuition discriminate |]).
    constructor.
  - intro e. split.
    + destruct e; simpl; intro H; try discriminate; tauto.
    + simpl. intros [<- | [<- | [<- | [<- | [<- | [<- | [<- | [<- | []]]]]]]]];
        reflexivity.
Qed.

(** ** Query *)

(** X12: [String()] does not tell queries apart: one string argument holding a
    space renders as two string arguments do. *)
Theorem Query_String_is_ambiguous (text a b : string) :
  Query_String (NewQuery text [IString (a ++ " " ++ b)])
  = Query_String (NewQuery text [IString a; IString b])
  /\ NewQuery text [IString (a ++ " " ++ b)] <> NewQuery text [IString a; IString b].
Proof.
  split; [reflexivity | discriminate].
Qed.
